(** * EngineEstimator: the performance calculation and the two chart curves

    A shallow embedding of [app.py] (the Streamlit script of the IC engine
    performance estimator) and the properties of its numeric core.

    Number model.  Python's [int] and [float] values are read as real numbers
    ([R] of the Standard Library): an [int] widget value [k] is the real
    [IZR k], [math.pi] is [PI], [np.exp] is [exp].  Rounding of binary64
    arithmetic is not part of this model; its statements are about the exact
    values of the expressions the script evaluates, kept in the order and
    association the script writes them.  Where a property turns on rounding
    (two inputs one unit in the last place apart), the lines concerned are
    also given in binary64 ([Module Binary64], on primitive floats), and
    statements about the outcome of a call are made on the ranges of the
    page's inputs, where no product overflows or underflows.

    What is modelled beyond plain arithmetic:
    - Python's true division [a / b] raises [ZeroDivisionError] when [b] is
      zero ([py_div]); divisions by a non-zero literal cannot raise and are
      written with [/] directly;
    - NumPy's elementwise operations on arrays ([ndarray], a list of reals)
      never raise;
    - the result dictionary of [calculate_engine_performance] has a fixed set
      of eleven keys and is a record. *)

From Stdlib Require Import Reals Lra Lia ZArith String List.
From Stdlib Require Import PrimFloat.
Import ListNotations.

Open Scope R_scope.

(* ------------------------------------------------------------------ *)
(** ** Python values and errors *)

(** An exception is identified by the name of its class, as [except] does. *)
Inductive exception : Type :=
| Exception (class_name : string).

Definition ZeroDivisionError : exception := Exception "ZeroDivisionError".


(** Outcome of running a piece of Python: a value, or a raised exception. *)
Inductive result (A : Type) : Type :=
| Return (a : A)
| Raise (exc : exception).

Arguments Return {A} a.
Arguments Raise {A} exc.

Definition bind {A B : Type} (m : result A) (k : A -> result B) : result B :=
  match m with
  | Return a => k a
  | Raise exc => Raise exc
  end.

Notation "x <- m ;; k" := (bind m (fun x => k))
  (at level 61, m at next level, right associativity).

(** [a / b] on Python numbers. *)
Definition py_div (a b : R) : result R :=
  if Req_dec_T b 0 then Raise ZeroDivisionError else Return (a / b).

(** [a == b] on Python strings. *)
Definition str_eq (a b : string) : bool := String.eqb a b.

(* ------------------------------------------------------------------ *)
(** ** [calculate_engine_performance] (app.py, lines 108-177) *)

(** The dictionary returned by [calculate_engine_performance]. *)
Record PerformanceResult : Type := mkPerformanceResult {
  swept_volume : R;
  indicated_power : R;
  brake_power : R;
  friction_power : R;
  mechanical_efficiency : R;
  brake_thermal_efficiency : R;
  indicated_thermal_efficiency : R;
  bsfc : R;
  isfc : R;
  torque : R;
  imep : R
}.

(** The arguments of [calculate_engine_performance], in its order. *)
Record Inputs : Type := mkInputs {
  in_bore : R;
  in_stroke : R;
  in_num_cylinders : R;
  in_engine_type : string;
  in_compression_ratio : R;
  in_rpm : R;
  in_imep : R;
  in_torque : R;
  in_calorific_value : R;
  in_fuel_consumption : R
}.

Module Calc.

(** The local variables of the function body, each as the expression the
    source assigns to it. *)

(** line 114 *)
Definition bore_m (bore : R) : R := bore / 1000.

(** line 115 *)
Definition stroke_m (stroke : R) : R := stroke / 1000.

(** line 118 *)
Definition swept_volume_per_cylinder (bore stroke : R) : R :=
  (PI / 4) * (bore_m bore ^ 2) * stroke_m stroke.

(** line 121 *)
Definition total_swept_volume (bore stroke num_cylinders : R) : R :=
  swept_volume_per_cylinder bore stroke * num_cylinders * 1e6.

(** line 125 *)
Definition brake_power (rpm torque : R) : R :=
  (2 * PI * rpm * torque) / (60 * 1000).

(** line 131 *)
Definition imep_pa (imep : R) : R := imep * 1e5.

(** line 134 *)
Definition piston_area (bore : R) : R := (PI / 4) * (bore_m bore ^ 2).

(** lines 137-140: the working strokes per minute *)
Definition n (engine_type : string) (rpm : R) : R :=
  if str_eq engine_type "2-Stroke" then rpm else rpm / 2.

(** line 143 *)
Definition indicated_power
    (bore stroke num_cylinders : R) (engine_type : string) (rpm imep : R) : R :=
  (imep_pa imep * stroke_m stroke * piston_area bore * n engine_type rpm
   * num_cylinders) / 60 / 1000.

(** line 147 *)
Definition friction_power (indicated_power brake_power : R) : R :=
  indicated_power - brake_power.

(** line 153 *)
Definition fuel_power (fuel_consumption calorific_value : R) : R :=
  (fuel_consumption / 3600) * calorific_value.

End Calc.

Definition calculate_engine_performance
    (bore stroke num_cylinders : R) (engine_type : string)
    (compression_ratio rpm imep torque calorific_value fuel_consumption : R)
    : result PerformanceResult :=
  let total_swept_volume := Calc.total_swept_volume bore stroke num_cylinders in
  let brake_power := Calc.brake_power rpm torque in
  let indicated_power :=
    Calc.indicated_power bore stroke num_cylinders engine_type rpm imep in
  let friction_power := Calc.friction_power indicated_power brake_power in
  (* line 150 *)
  q <- py_div brake_power indicated_power ;;
  let mechanical_efficiency := q * 100 in
  let fuel_power := Calc.fuel_power fuel_consumption calorific_value in
  (* line 154 *)
  q <- py_div brake_power fuel_power ;;
  let brake_thermal_efficiency := q * 100 in
  (* line 157 *)
  q <- py_div indicated_power fuel_power ;;
  let indicated_thermal_efficiency := q * 100 in
  (* line 160 *)
  bsfc <- py_div (fuel_consumption * 1000) brake_power ;;
  (* line 163 *)
  isfc <- py_div (fuel_consumption * 1000) indicated_power ;;
  Return {|
    swept_volume := total_swept_volume;
    indicated_power := indicated_power;
    brake_power := brake_power;
    friction_power := friction_power;
    mechanical_efficiency := mechanical_efficiency;
    brake_thermal_efficiency := brake_thermal_efficiency;
    indicated_thermal_efficiency := indicated_thermal_efficiency;
    bsfc := bsfc;
    isfc := isfc;
    torque := torque;
    imep := imep
  |}.

(** lines 180-183: [results], the call on the widget values gathered in an
    [Inputs]. *)
Definition results (i : Inputs) : result PerformanceResult :=
  calculate_engine_performance
    (in_bore i) (in_stroke i) (in_num_cylinders i) (in_engine_type i)
    (in_compression_ratio i) (in_rpm i) (in_imep i) (in_torque i)
    (in_calorific_value i) (in_fuel_consumption i).

(* ------------------------------------------------------------------ *)
(** ** NumPy arrays *)

(** A one-dimensional array of floats. *)
Definition ndarray : Type := list R.

Module np.

(** [np.linspace(start, stop, num)]: [num] evenly spaced samples, both end
    points included.  NumPy computes [arange(0, num) * step + start] with
    [step = (stop - start) / (num - 1)] and then overwrites the last entry
    with [stop], which is the value that entry already has over the reals
    (lemma [linspace_last]). *)
Definition linspace (start stop : R) (num : nat) : ndarray :=
  let step := (stop - start) / INR (num - 1) in
  map (fun i => INR i * step + start) (seq 0 num).

(** [a ** c], array by scalar.  On a positive base, the only case the script
    meets, the power with a real exponent is [Rpower]. *)
Definition pow_scalar (a : ndarray) (c : R) : ndarray :=
  map (fun x => Rpower x c) a.

(** [c / a], scalar by array *)
Definition scalar_div (c : R) (a : ndarray) : ndarray := map (fun x => c / x) a.

(** [c - a], scalar by array *)
Definition scalar_sub (c : R) (a : ndarray) : ndarray := map (fun x => c - x) a.

(** [c * a], scalar by array *)
Definition scalar_mul (c : R) (a : ndarray) : ndarray := map (fun x => c * x) a.

(** [a * c], array by scalar *)
Definition mul_scalar (a : ndarray) (c : R) : ndarray := map (fun x => x * c) a.

(** [a / c], array by scalar *)
Definition div_scalar (a : ndarray) (c : R) : ndarray := map (fun x => x / c) a.

(** [a * b], elementwise on arrays of one shape *)
Fixpoint mul (a b : ndarray) : ndarray :=
  match a, b with
  | x :: a', y :: b' => x * y :: mul a' b'
  | _, _ => []
  end.

End np.

(* ------------------------------------------------------------------ *)
(** ** Efficiency against compression ratio (app.py, lines 267-280) *)

(** line 267 *)
Definition cr_range : ndarray := np.linspace 6 20 50.

(** lines 270-277 *)
Definition theoretical_efficiency (fuel_type : string) : ndarray :=
  if str_eq fuel_type "Petrol" then
    let gamma := 1.4 in
    np.mul_scalar
      (np.scalar_sub 1 (np.scalar_div 1 (np.pow_scalar cr_range (gamma - 1))))
      100
  else
    let gamma := 1.35 in
    np.mul_scalar
      (np.mul_scalar
         (np.scalar_sub 1 (np.scalar_div 1 (np.pow_scalar cr_range (gamma - 1))))
         100)
      0.9.

(** line 280 *)
Definition practical_efficiency (fuel_type : string) : ndarray :=
  np.mul_scalar (theoretical_efficiency fuel_type) 0.6.

(* ------------------------------------------------------------------ *)
(** ** Power and torque against RPM (app.py, lines 321-343) *)

(** line 321 *)
Definition rpm_range : ndarray := np.linspace 1000 6000 50.

(** line 325 *)
Definition peak_rpm : R := 3000.

(** lines 331-337: the body of the loop, the torque [t] appended for the
    sample [r] *)
Definition torque_at (max_torque r : R) : R :=
  if Rle_dec r peak_rpm then
    max_torque * (r / peak_rpm)
  else
    let decay_factor := exp (- 0.0005 * (r - peak_rpm)) in
    max_torque * decay_factor.

(** lines 329-340: the loop appends one torque per sample, in order *)
Definition torque_curve (max_torque : R) : ndarray :=
  fold_left (fun acc r => acc ++ [torque_at max_torque r]) rpm_range [].

(** line 343 *)
Definition power_curve (max_torque : R) : ndarray :=
  np.div_scalar
    (np.mul (np.scalar_mul (2 * PI) rpm_range) (torque_curve max_torque))
    60000.

(* ------------------------------------------------------------------ *)
(** ** The inputs the page can produce (app.py, lines 80-105) *)

(** A value of an [int] widget. *)
Definition is_int (x : R) : Prop := exists k : Z, x = IZR k.

(** The [min_value]/[max_value] bounds of the number inputs and the options
    of the two select boxes. *)
Definition within_widget_ranges (i : Inputs) : Prop :=
  10 <= in_bore i <= 1000 /\
  10 <= in_stroke i <= 500 /\
  (is_int (in_num_cylinders i) /\ 1 <= in_num_cylinders i <= 12) /\
  (in_engine_type i = "4-Stroke"%string \/ in_engine_type i = "2-Stroke"%string) /\
  6 <= in_compression_ratio i <= 20 /\
  (is_int (in_rpm i) /\ 0 <= in_rpm i <= 8000) /\
  1 <= in_imep i <= 30 /\
  10 <= in_torque i <= 1000 /\
  (is_int (in_calorific_value i) /\ 30000 <= in_calorific_value i <= 50000) /\
  0.1 <= in_fuel_consumption i <= 100.

(** The page as it first loads: every widget at its [value]. *)
Definition defaults : Inputs := {|
  in_bore := 80;
  in_stroke := 90;
  in_num_cylinders := 4;
  in_engine_type := "4-Stroke";
  in_compression_ratio := 9.5;
  in_rpm := 3000;
  in_imep := 8;
  in_torque := 150;
  in_calorific_value := 44000;
  in_fuel_consumption := 5
|}.

(** The default page with the RPM input set to [r]. *)
Definition defaults_at_rpm (r : R) : Inputs := {|
  in_bore := in_bore defaults;
  in_stroke := in_stroke defaults;
  in_num_cylinders := in_num_cylinders defaults;
  in_engine_type := in_engine_type defaults;
  in_compression_ratio := in_compression_ratio defaults;
  in_rpm := r;
  in_imep := in_imep defaults;
  in_torque := in_torque defaults;
  in_calorific_value := in_calorific_value defaults;
  in_fuel_consumption := in_fuel_consumption defaults
|}.

(* ------------------------------------------------------------------ *)
(** ** Order of the entries of an array *)

(** The entries of [a] grow with the index. *)
Definition strictly_increasing (a : ndarray) : Prop :=
  forall i j : nat, (i < j < length a)%nat -> nth i a 0 < nth j a 0.

(* ------------------------------------------------------------------ *)
(** ** Lines 114-121 in binary64 *)

Module Binary64.

(** [math.pi], the double nearest to pi *)
Definition pi : float := 0x1.921fb54442d18p+1%float.

(** line 114 *)
Definition bore_m (bore : float) : float := (bore / 1000)%float.

(** line 115 *)
Definition stroke_m (stroke : float) : float := (stroke / 1000)%float.

Section Pow.

(** [x ** y] on floats is the C library's [pow]; how it rounds is left to
    the platform, so it is a parameter of the two definitions that use it. *)
Variable pow : float -> float -> float.

(** line 118 *)
Definition swept_volume_per_cylinder (bore stroke : float) : float :=
  ((pi / 4) * pow (bore_m bore) 2 * stroke_m stroke)%float.

(** line 121; [num_cylinders] is the [int] converted to a double *)
Definition total_swept_volume (bore stroke num_cylinders : float) : float :=
  (swept_volume_per_cylinder bore stroke * num_cylinders * 1e6)%float.

End Pow.


End Binary64.

(* ------------------------------------------------------------------ *)
(** * Properties *)

(** ** Arithmetic facts used below *)

Lemma PI_bounds : 3.14159 < PI < 3.1416.
Proof.
  pose proof (PI_2_3_7_ineq 2) as H.
  unfold sum_f_R0, tg_alt, PI_2_3_7_tg, Ratan_seq in H.
  simpl in H.
  lra.
Qed.

Lemma py_div_nonzero (a b : R) : b <> 0 -> py_div a b = Return (a / b).
Proof.
  intros Hb. unfold py_div.
  destruct (Req_dec_T b 0) as [E | _]; [contradiction | reflexivity].
Qed.

Lemma py_div_zero (a b : R) : b = 0 -> py_div a b = Raise ZeroDivisionError.
Proof.
  intros Hb. unfold py_div.
  destruct (Req_dec_T b 0) as [_ | N]; [reflexivity | contradiction].
Qed.

(** ** What a call of [calculate_engine_performance] does *)

Section Call.

Variables bore stroke num_cylinders : R.
Variable engine_type : string.
Variables compression_ratio rpm imep_in torque_in : R.
Variables calorific_value fuel_consumption : R.

Let ip := Calc.indicated_power bore stroke num_cylinders engine_type rpm imep_in.
Let bp := Calc.brake_power rpm torque_in.
Let fp := Calc.fuel_power fuel_consumption calorific_value.
Let call := calculate_engine_performance bore stroke num_cylinders engine_type
              compression_ratio rpm imep_in torque_in calorific_value
              fuel_consumption.

(** With the three denominators away from zero the call returns the
    dictionary built from the local variables. *)
Lemma calculate_returns :
  ip <> 0 -> bp <> 0 -> fp <> 0 ->
  call = Return {|
    swept_volume := Calc.total_swept_volume bore stroke num_cylinders;
    indicated_power := ip;
    brake_power := bp;
    friction_power := Calc.friction_power ip bp;
    mechanical_efficiency := bp / ip * 100;
    brake_thermal_efficiency := bp / fp * 100;
    indicated_thermal_efficiency := ip / fp * 100;
    bsfc := fuel_consumption * 1000 / bp;
    isfc := fuel_consumption * 1000 / ip;
    torque := torque_in;
    imep := imep_in
  |}.
Proof.
  intros Hip Hbp Hfp.
  unfold call, calculate_engine_performance.
  fold ip bp fp.
  rewrite (py_div_nonzero bp ip Hip); cbn [bind].
  rewrite (py_div_nonzero bp fp Hfp); cbn [bind].
  rewrite (py_div_nonzero ip fp Hfp); cbn [bind].
  rewrite (py_div_nonzero _ bp Hbp); cbn [bind].
  rewrite (py_div_nonzero _ ip Hip); cbn [bind].
  reflexivity.
Qed.

(** With one of them zero the call raises at the first division by it. *)
Lemma calculate_raises :
  ip = 0 \/ bp = 0 \/ fp = 0 -> call = Raise ZeroDivisionError.
Proof.
  intros H.
  unfold call, calculate_engine_performance.
  fold ip bp fp.
  destruct (Req_dec_T ip 0) as [Eip | Nip].
  { rewrite (py_div_zero bp ip Eip). reflexivity. }
  rewrite (py_div_nonzero bp ip Nip); cbn [bind].
  destruct (Req_dec_T fp 0) as [Efp | Nfp].
  { rewrite (py_div_zero bp fp Efp). reflexivity. }
  rewrite (py_div_nonzero bp fp Nfp); cbn [bind].
  rewrite (py_div_nonzero ip fp Nfp); cbn [bind].
  destruct H as [H | [H | H]]; try contradiction.
  rewrite (py_div_zero _ bp H). reflexivity.
Qed.

(** A returned dictionary carries the local variables in its fields, and
    the call gets that far only past three non-zero denominators. *)
Lemma calculate_returned (res : PerformanceResult) :
  call = Return res ->
  (ip <> 0 /\ bp <> 0 /\ fp <> 0) /\
  swept_volume res = Calc.total_swept_volume bore stroke num_cylinders /\
  indicated_power res = ip /\
  brake_power res = bp /\
  friction_power res = Calc.friction_power ip bp.
Proof.
  intros Hcall.
  destruct (Req_dec_T ip 0) as [Eip | Nip].
  { rewrite calculate_raises in Hcall by (left; exact Eip). discriminate. }
  destruct (Req_dec_T bp 0) as [Ebp | Nbp].
  { rewrite calculate_raises in Hcall by (right; left; exact Ebp). discriminate. }
  destruct (Req_dec_T fp 0) as [Efp | Nfp].
  { rewrite calculate_raises in Hcall by (right; right; exact Efp). discriminate. }
  rewrite (calculate_returns Nip Nbp Nfp) in Hcall.
  inversion Hcall; subst res; cbn.
  repeat split; assumption || reflexivity.
Qed.

(** The only exception a call can raise is [ZeroDivisionError]. *)
Lemma calculate_raised (exc : exception) :
  call = Raise exc ->
  exc = ZeroDivisionError /\ (ip = 0 \/ bp = 0 \/ fp = 0).
Proof.
  intros Hcall.
  destruct (Req_dec_T ip 0) as [Eip | Nip].
  { rewrite calculate_raises in Hcall by (left; exact Eip).
    inversion Hcall. split; [reflexivity | left; exact Eip]. }
  destruct (Req_dec_T bp 0) as [Ebp | Nbp].
  { rewrite calculate_raises in Hcall by (right; left; exact Ebp).
    inversion Hcall. split; [reflexivity | right; left; exact Ebp]. }
  destruct (Req_dec_T fp 0) as [Efp | Nfp].
  { rewrite calculate_raises in Hcall by (right; right; exact Efp).
    inversion Hcall. split; [reflexivity | right; right; exact Efp]. }
  rewrite (calculate_returns Nip Nbp Nfp) in Hcall. discriminate.
Qed.

End Call.

(** On the page's ranges, once the engine turns, the three denominators are
    positive. *)
Lemma denominators_positive
    (bore stroke num_cylinders : R) (engine_type : string)
    (rpm imep_in torque_in calorific_value fuel_consumption : R) :
  0 < bore -> 0 < stroke -> 0 < num_cylinders -> 0 < rpm -> 0 < imep_in ->
  0 < torque_in -> 0 < calorific_value -> 0 < fuel_consumption ->
  0 < Calc.indicated_power bore stroke num_cylinders engine_type rpm imep_in /\
  0 < Calc.brake_power rpm torque_in /\
  0 < Calc.fuel_power fuel_consumption calorific_value.
Proof.
  intros Hb Hs Hn Hr Hi Ht Hc Hf.
  pose proof PI_RGT_0 as Hpi.
  assert (Hws : 0 < Calc.n engine_type rpm).
  { unfold Calc.n. destruct (str_eq engine_type "2-Stroke"); lra. }
  assert (Harea : 0 < Calc.piston_area bore).
  { unfold Calc.piston_area, Calc.bore_m.
    apply Rmult_lt_0_compat; [lra | apply pow_lt; lra]. }
  repeat split.
  - unfold Calc.indicated_power, Calc.imep_pa, Calc.stroke_m.
    assert (0 < imep_in * 1e5 * (stroke / 1000) * Calc.piston_area bore
                * Calc.n engine_type rpm * num_cylinders).
    { apply Rmult_lt_0_compat; [ | lra].
      apply Rmult_lt_0_compat; [ | exact Hws].
      apply Rmult_lt_0_compat; [ | exact Harea].
      apply Rmult_lt_0_compat; lra. }
    lra.
  - unfold Calc.brake_power.
    assert (0 < 2 * PI * rpm * torque_in).
    { apply Rmult_lt_0_compat; [ | lra].
      apply Rmult_lt_0_compat; lra. }
    apply Rdiv_lt_0_compat; lra.
  - unfold Calc.fuel_power. apply Rmult_lt_0_compat; lra.
Qed.

(** A returned dictionary, field by field. *)
Lemma calculate_returned_record
    (bore stroke num_cylinders : R) (engine_type : string)
    (compression_ratio rpm imep_in torque_in calorific_value fuel_consumption : R)
    (res : PerformanceResult) :
  calculate_engine_performance bore stroke num_cylinders engine_type
    compression_ratio rpm imep_in torque_in calorific_value fuel_consumption
  = Return res ->
  let ip := Calc.indicated_power bore stroke num_cylinders engine_type rpm imep_in in
  let bp := Calc.brake_power rpm torque_in in
  let fp := Calc.fuel_power fuel_consumption calorific_value in
  (ip <> 0 /\ bp <> 0 /\ fp <> 0) /\
  res = {|
    swept_volume := Calc.total_swept_volume bore stroke num_cylinders;
    indicated_power := ip;
    brake_power := bp;
    friction_power := Calc.friction_power ip bp;
    mechanical_efficiency := bp / ip * 100;
    brake_thermal_efficiency := bp / fp * 100;
    indicated_thermal_efficiency := ip / fp * 100;
    bsfc := fuel_consumption * 1000 / bp;
    isfc := fuel_consumption * 1000 / ip;
    torque := torque_in;
    imep := imep_in
  |}.
Proof.
  intros Hres ip bp fp.
  destruct (calculate_returned _ _ _ _ _ _ _ _ _ _ _ Hres)
    as ((Hip & Hbp & Hfp) & _).
  split; [repeat split; assumption | ].
  rewrite (calculate_returns _ _ _ _ compression_ratio _ _ _ _ _ Hip Hbp Hfp)
    in Hres.
  inversion Hres. reflexivity.
Qed.

(** ** C1: the indicated power *)

(** C1.  For every input with [imep > 0], [bore > 0], [stroke > 0],
    [num_cylinders >= 1] and [rpm >= 0], the indicated power computed at
    line 143 is
    [(imep*1e5) * (stroke/1000) * ((pi/4)*(bore/1000)^2) * n * num_cylinders
     / 60 / 1000],
    where [n] is [rpm] for a two-stroke engine and [rpm/2] for a four-stroke
    one.  The dictionary a call returns carries that value under
    ['indicated_power'].  The test [engine_type == "2-Stroke"] is the only
    branching of the whole calculation: two engine types on which the test
    agrees give the same outcome of the call, returned or raised, and every
    one of the eleven fields of a returned dictionary is one fixed
    arithmetic expression in the inputs and [n]. *)
Theorem C1_indicated_power_formula
    (bore stroke num_cylinders : R) (engine_type : string)
    (compression_ratio rpm imep_in torque_in calorific_value fuel_consumption : R) :
  0 < imep_in -> 0 < bore -> 0 < stroke -> 1 <= num_cylinders -> 0 <= rpm ->
  let formula (n : R) :=
    (imep_in * 1e5) * (stroke / 1000) * ((PI / 4) * (bore / 1000) ^ 2) * n
    * num_cylinders / 60 / 1000 in
  let computed :=
    Calc.indicated_power bore stroke num_cylinders engine_type rpm imep_in in
  (engine_type = "2-Stroke"%string -> computed = formula rpm) /\
  (engine_type = "4-Stroke"%string -> computed = formula (rpm / 2)) /\
  computed = formula (if str_eq engine_type "2-Stroke" then rpm else rpm / 2) /\
  (forall res,
     calculate_engine_performance bore stroke num_cylinders engine_type
       compression_ratio rpm imep_in torque_in calorific_value fuel_consumption
     = Return res ->
     indicated_power res = computed) /\
  (forall engine_type',
     str_eq engine_type' "2-Stroke" = str_eq engine_type "2-Stroke" ->
     calculate_engine_performance bore stroke num_cylinders engine_type'
       compression_ratio rpm imep_in torque_in calorific_value fuel_consumption
     = calculate_engine_performance bore stroke num_cylinders engine_type
         compression_ratio rpm imep_in torque_in calorific_value
         fuel_consumption) /\
  (forall res,
     calculate_engine_performance bore stroke num_cylinders engine_type
       compression_ratio rpm imep_in torque_in calorific_value fuel_consumption
     = Return res ->
     let n := if str_eq engine_type "2-Stroke" then rpm else rpm / 2 in
     let bp := (2 * PI * rpm * torque_in) / (60 * 1000) in
     let fp := (fuel_consumption / 3600) * calorific_value in
     res = {|
       swept_volume :=
         (PI / 4) * (bore / 1000) ^ 2 * (stroke / 1000) * num_cylinders * 1e6;
       indicated_power := formula n;
       brake_power := bp;
       friction_power := formula n - bp;
       mechanical_efficiency := bp / formula n * 100;
       brake_thermal_efficiency := bp / fp * 100;
       indicated_thermal_efficiency := formula n / fp * 100;
       bsfc := fuel_consumption * 1000 / bp;
       isfc := fuel_consumption * 1000 / formula n;
       torque := torque_in;
       imep := imep_in
     |}).
Proof.
  intros _ _ _ _ _ formula computed.
  assert (Hgen : computed
                 = formula (if str_eq engine_type "2-Stroke" then rpm else rpm / 2)).
  { reflexivity. }
  split; [ | split; [ | split; [ | split; [ | split]]]].
  - intros ->. exact Hgen.
  - intros ->. exact Hgen.
  - exact Hgen.
  - intros res Hres.
    apply calculate_returned in Hres.
    destruct Hres as (_ & _ & Hip & _). exact Hip.
  - intros engine_type' Htest.
    unfold calculate_engine_performance, Calc.indicated_power, Calc.n.
    rewrite Htest. reflexivity.
  - intros res Hres n bp fp.
    apply calculate_returned_record in Hres.
    destruct Hres as (_ & ->). reflexivity.
Qed.

(** The default page: four-stroke, so [n = 3000 / 2]. *)
Lemma C1_indicated_power_formula_witness :
  Calc.indicated_power 80 90 4 "4-Stroke" 3000 8
  = (8 * 1e5) * (90 / 1000) * ((PI / 4) * (80 / 1000) ^ 2) * (3000 / 2) * 4
    / 60 / 1000 /\
  calculate_engine_performance 80 90 4 "Wankel" 9.5 3000 8 150 44000 5
  = calculate_engine_performance 80 90 4 "4-Stroke" 9.5 3000 8 150 44000 5.
Proof.
  destruct (C1_indicated_power_formula 80 90 4 "4-Stroke" 9.5 3000 8 150 44000 5)
    as (_ & Hfour & _ & _ & Hsame & _); try lra.
  split; [exact (Hfour eq_refl) | exact (Hsame "Wankel"%string eq_refl)].
Defined.

(** ** C2: the brake power *)

(** C2.  For all [rpm, torque > 0] the brake power computed at line 125 is
    [(2*pi*rpm*torque)/60000], and a returned dictionary carries it under
    ['brake_power']; at [rpm = 3000], [torque = 150] it is 47.12 to two
    decimals. *)
Theorem C2_brake_power_formula
    (bore stroke num_cylinders : R) (engine_type : string)
    (compression_ratio rpm imep_in torque_in calorific_value fuel_consumption : R) :
  0 < rpm -> 0 < torque_in ->
  Calc.brake_power rpm torque_in = (2 * PI * rpm * torque_in) / 60000 /\
  (forall res,
     calculate_engine_performance bore stroke num_cylinders engine_type
       compression_ratio rpm imep_in torque_in calorific_value fuel_consumption
     = Return res ->
     brake_power res = (2 * PI * rpm * torque_in) / 60000) /\
  47.115 < Calc.brake_power 3000 150 < 47.125.
Proof.
  intros _ _.
  assert (Hbp : forall r t, Calc.brake_power r t = (2 * PI * r * t) / 60000).
  { intros r t. unfold Calc.brake_power. f_equal. lra. }
  split; [ | split; [ | split]].
  - apply Hbp.
  - intros res Hres.
    apply calculate_returned in Hres.
    destruct Hres as (_ & _ & _ & Hb & _).
    rewrite Hb. apply Hbp.
  - rewrite Hbp. pose proof PI_bounds. lra.
  - rewrite Hbp. pose proof PI_bounds. lra.
Qed.

Lemma C2_brake_power_formula_witness :
  Calc.brake_power 3000 150 = (2 * PI * 3000 * 150) / 60000.
Proof.
  refine (proj1
    (C2_brake_power_formula 80 90 4 "4-Stroke" 9.5 3000 8 150 44000 5 _ _));
    lra.
Defined.

(** The call on the default page returns: its denominators are positive. *)
Lemma default_call_returns (engine_type : string) (compression_ratio : R) :
  exists res,
    calculate_engine_performance 80 90 4 engine_type compression_ratio
      3000 8 150 44000 5 = Return res.
Proof.
  destruct (denominators_positive 80 90 4 engine_type 3000 8 150 44000 5)
    as (Hip & Hbp & Hfp); try lra.
  eexists. apply calculate_returns; apply Rgt_not_eq; assumption.
Qed.

(** ** C3: the friction power *)

(** C3.  In every dictionary a call returns, the value under
    ['friction_power'] is the value under ['indicated_power'] minus the value
    under ['brake_power']; line 147 applies no clamp, so the difference is
    kept when it is negative (as it is on the default page, see the
    witness). *)
Theorem C3_friction_power_identity
    (bore stroke num_cylinders : R) (engine_type : string)
    (compression_ratio rpm imep_in torque_in calorific_value fuel_consumption : R)
    (res : PerformanceResult) :
  calculate_engine_performance bore stroke num_cylinders engine_type
    compression_ratio rpm imep_in torque_in calorific_value fuel_consumption
  = Return res ->
  friction_power res = indicated_power res - brake_power res.
Proof.
  intros Hres.
  apply calculate_returned in Hres.
  destruct Hres as (_ & _ & Hip & Hbp & Hfr).
  rewrite Hfr, Hip, Hbp. reflexivity.
Qed.

(** On the default page the call returns and the friction power is the
    difference, a negative number there. *)
Lemma C3_friction_power_identity_witness :
  exists res,
    calculate_engine_performance 80 90 4 "4-Stroke" 9.5 3000 8 150 44000 5
    = Return res /\
    friction_power res = indicated_power res - brake_power res /\
    friction_power res < 0.
Proof.
  destruct (default_call_returns "4-Stroke" 9.5) as [res Hres].
  exists res. split; [exact Hres | ].
  pose proof (C3_friction_power_identity _ _ _ _ _ _ _ _ _ _ res Hres) as Hid.
  split; [exact Hid | ].
  rewrite Hid.
  apply calculate_returned in Hres.
  destruct Hres as (_ & _ & Hip & Hbp & _).
  rewrite Hip, Hbp.
  unfold Calc.indicated_power, Calc.brake_power, Calc.imep_pa, Calc.stroke_m,
    Calc.piston_area, Calc.bore_m, Calc.n.
  cbn [str_eq String.eqb Ascii.eqb Bool.eqb].
  pose proof PI_RGT_0. lra.
Defined.

(** ** C4: division by a zero power *)




(** ** C5: the denominators on the page's ranges *)

Lemma defaults_at_rpm_within_ranges (k : Z) :
  (0 <= k <= 8000)%Z -> within_widget_ranges (defaults_at_rpm (IZR k)).
Proof.
  intros [Hlo Hhi].
  apply IZR_le in Hlo, Hhi.
  unfold within_widget_ranges, defaults_at_rpm, defaults, is_int; cbn.
  repeat match goal with
         | |- _ /\ _ => split
         end;
    try lra;
    try (left; reflexivity).
  - exists 4%Z. reflexivity.
  - exists k. reflexivity.
  - exists 44000%Z. reflexivity.
Qed.

(** C5 does not hold of the code: the RPM input admits 0 (line 88,
    [min_value=0]), and at [rpm = 0], every other widget at its default, the
    brake power and the indicated power are both zero, so the first division
    (line 150) raises [ZeroDivisionError]. *)
Theorem C5_rpm_zero_within_range_divides_by_zero :
  let i := defaults_at_rpm 0 in
  within_widget_ranges i /\
  Calc.brake_power (in_rpm i) (in_torque i) = 0 /\
  Calc.indicated_power (in_bore i) (in_stroke i) (in_num_cylinders i)
    (in_engine_type i) (in_rpm i) (in_imep i) = 0 /\
  results i = Raise ZeroDivisionError.
Proof.
  assert (Hbp : Calc.brake_power 0 150 = 0).
  { unfold Calc.brake_power. lra. }
  assert (Hip : Calc.indicated_power 80 90 4 "4-Stroke" 0 8 = 0).
  { unfold Calc.indicated_power, Calc.n. cbn [str_eq String.eqb Ascii.eqb Bool.eqb].
    lra. }
  cbn zeta.
  split; [exact (defaults_at_rpm_within_ranges 0 ltac:(lia)) | ].
  split; [exact Hbp | ].
  split; [exact Hip | ].
  unfold results, defaults_at_rpm, defaults; cbn [in_bore in_stroke in_num_cylinders
    in_engine_type in_compression_ratio in_rpm in_imep in_torque
    in_calorific_value in_fuel_consumption].
  apply calculate_raises. left. exact Hip.
Qed.

(** What does hold on the page's ranges: away from [rpm = 0] the three
    denominators are positive and the call returns. *)
Lemma positive_rpm_within_ranges_returns (i : Inputs) :
  within_widget_ranges i -> 0 < in_rpm i ->
  (0 < Calc.indicated_power (in_bore i) (in_stroke i) (in_num_cylinders i)
         (in_engine_type i) (in_rpm i) (in_imep i) /\
   0 < Calc.brake_power (in_rpm i) (in_torque i) /\
   0 < Calc.fuel_power (in_fuel_consumption i) (in_calorific_value i)) /\
  exists res, results i = Return res.
Proof.
  intros (Hb & Hs & (_ & Hn) & _ & _ & _ & Hi & Ht & (_ & Hc) & Hf) Hr.
  pose proof (denominators_positive (in_bore i) (in_stroke i)
                (in_num_cylinders i) (in_engine_type i) (in_rpm i) (in_imep i)
                (in_torque i) (in_calorific_value i) (in_fuel_consumption i))
    as Hpos.
  destruct Hpos as (Hip & Hbp & Hfp); try lra.
  split; [repeat split; assumption | ].
  eexists. unfold results. apply calculate_returns; apply Rgt_not_eq; assumption.
Qed.

(** ** C6: two-stroke against four-stroke *)

(** C6.  With the same bore, stroke, cylinder count, rpm, imep, torque and
    fuel values, the indicated power computed for ["2-Stroke"] is twice the
    one computed for ["4-Stroke"], as local values and as the fields of the
    dictionaries the two calls return. *)
Theorem C6_two_stroke_doubles_indicated_power
    (bore stroke num_cylinders : R)
    (compression_ratio rpm imep_in torque_in calorific_value fuel_consumption : R) :
  Calc.indicated_power bore stroke num_cylinders "2-Stroke" rpm imep_in
  = 2 * Calc.indicated_power bore stroke num_cylinders "4-Stroke" rpm imep_in /\
  (forall res2 res4,
     calculate_engine_performance bore stroke num_cylinders "2-Stroke"
       compression_ratio rpm imep_in torque_in calorific_value fuel_consumption
     = Return res2 ->
     calculate_engine_performance bore stroke num_cylinders "4-Stroke"
       compression_ratio rpm imep_in torque_in calorific_value fuel_consumption
     = Return res4 ->
     indicated_power res2 = 2 * indicated_power res4).
Proof.
  assert (Hloc :
    Calc.indicated_power bore stroke num_cylinders "2-Stroke" rpm imep_in
    = 2 * Calc.indicated_power bore stroke num_cylinders "4-Stroke" rpm imep_in).
  { unfold Calc.indicated_power, Calc.n.
    cbn [str_eq String.eqb Ascii.eqb Bool.eqb].
    field. }
  split; [exact Hloc | ].
  intros res2 res4 H2 H4.
  apply calculate_returned in H2. destruct H2 as (_ & _ & H2 & _).
  apply calculate_returned in H4. destruct H4 as (_ & _ & H4 & _).
  rewrite H2, H4. exact Hloc.
Qed.

Lemma C6_two_stroke_doubles_indicated_power_witness :
  exists res2 res4,
    calculate_engine_performance 80 90 4 "2-Stroke" 9.5 3000 8 150 44000 5
    = Return res2 /\
    calculate_engine_performance 80 90 4 "4-Stroke" 9.5 3000 8 150 44000 5
    = Return res4 /\
    indicated_power res2 = 2 * indicated_power res4.
Proof.
  destruct (default_call_returns "2-Stroke" 9.5) as [res2 H2].
  destruct (default_call_returns "4-Stroke" 9.5) as [res4 H4].
  exists res2, res4.
  split; [exact H2 | split; [exact H4 | ]].
  exact (proj2
    (C6_two_stroke_doubles_indicated_power 80 90 4 9.5 3000 8 150 44000 5)
    res2 res4 H2 H4).
Defined.

(** ** C7: the swept volume *)

Lemma swept_volume_closed_form (bore stroke num_cylinders : R) :
  Calc.total_swept_volume bore stroke num_cylinders
  = (PI / 4) * (bore / 1000) ^ 2 * (stroke / 1000) * num_cylinders * 1e6.
Proof. reflexivity. Qed.


(** Whatever [pow] does, two strokes with the same [stroke_m] give the same
    swept volume in binary64. *)
Lemma binary64_swept_volume_reads_stroke_m
    (pow : float -> float -> float) (bore stroke stroke' num_cylinders : float) :
  Binary64.stroke_m stroke = Binary64.stroke_m stroke' ->
  Binary64.total_swept_volume pow bore stroke num_cylinders
  = Binary64.total_swept_volume pow bore stroke' num_cylinders.
Proof.
  intros H.
  unfold Binary64.total_swept_volume, Binary64.swept_volume_per_cylinder.
  rewrite H. reflexivity.
Qed.




(** ** C10: the compression ratio *)

(** C10.  Two calls that differ only in [compression_ratio] have the same
    outcome: the parameter is accepted and never read. *)
Theorem C10_compression_ratio_ignored
    (bore stroke num_cylinders : R) (engine_type : string)
    (compression_ratio compression_ratio' : R)
    (rpm imep_in torque_in calorific_value fuel_consumption : R) :
  calculate_engine_performance bore stroke num_cylinders engine_type
    compression_ratio rpm imep_in torque_in calorific_value fuel_consumption
  = calculate_engine_performance bore stroke num_cylinders engine_type
      compression_ratio' rpm imep_in torque_in calorific_value fuel_consumption.
Proof. reflexivity. Qed.

(* ------------------------------------------------------------------ *)
(** ** Arrays: entries and order *)

Lemma nth_map_in_range {A : Type} (f : A -> R) (l : list A) (i : nat) (d : A) :
  (i < length l)%nat -> nth i (map f l) 0 = f (nth i l d).
Proof.
  intros Hi.
  rewrite (nth_indep (map f l) 0 (f d)) by (rewrite length_map; exact Hi).
  apply map_nth.
Qed.

Lemma linspace_length (start stop : R) (num : nat) :
  length (np.linspace start stop num) = num.
Proof. unfold np.linspace. rewrite length_map, length_seq. reflexivity. Qed.

Lemma linspace_nth (start stop : R) (num i : nat) :
  (i < num)%nat ->
  nth i (np.linspace start stop num) 0
  = INR i * ((stop - start) / INR (num - 1)) + start.
Proof.
  intros Hi. unfold np.linspace.
  rewrite (nth_map_in_range _ _ i 0%nat) by (rewrite length_seq; exact Hi).
  rewrite seq_nth by exact Hi. reflexivity.
Qed.

Lemma linspace_first (start stop : R) (num : nat) :
  (0 < num)%nat -> nth 0 (np.linspace start stop num) 0 = start.
Proof. intros Hn. rewrite linspace_nth by exact Hn. simpl. lra. Qed.

Lemma linspace_last (start stop : R) (num : nat) :
  (2 <= num)%nat -> nth (num - 1) (np.linspace start stop num) 0 = stop.
Proof.
  intros Hn. rewrite linspace_nth by lia.
  assert (Hpos : 0 < INR (num - 1)) by (apply lt_0_INR; lia).
  field. lra.
Qed.

Lemma linspace_strictly_increasing (start stop : R) (num : nat) :
  start < stop -> strictly_increasing (np.linspace start stop num).
Proof.
  intros Hlt i j [Hij Hj].
  rewrite linspace_length in Hj.
  rewrite !linspace_nth by lia.
  assert (Hpos : 0 < INR (num - 1)) by (apply lt_0_INR; lia).
  assert (Hstep : 0 < (stop - start) / INR (num - 1)).
  { apply Rdiv_lt_0_compat; lra. }
  apply Rplus_lt_compat_r.
  apply Rmult_lt_compat_r; [exact Hstep | apply lt_INR; exact Hij].
Qed.

Lemma linspace_bounds (start stop : R) (num i : nat) :
  start <= stop -> (i < num)%nat ->
  start <= nth i (np.linspace start stop num) 0 <= stop.
Proof.
  intros Hle Hi.
  rewrite linspace_nth by exact Hi.
  assert (Hpos : 0 < INR (num - 1) \/ num = 1%nat).
  { destruct (Nat.eq_dec num 1) as [E | N]; [right; exact E | left].
    apply lt_0_INR; lia. }
  destruct Hpos as [Hpos | ->].
  - assert (Hi0 : 0 <= INR i) by apply pos_INR.
    assert (Hi1 : INR i <= INR (num - 1)) by (apply le_INR; lia).
    assert (Hfrac : INR i * ((stop - start) / INR (num - 1))
                    = (stop - start) * (INR i / INR (num - 1))).
    { field. lra. }
    rewrite Hfrac.
    assert (Hq0 : 0 <= INR i / INR (num - 1)).
    { apply Rmult_le_pos; [exact Hi0 | ].
      apply Rlt_le, Rinv_0_lt_compat, Hpos. }
    assert (Hq1 : INR i / INR (num - 1) <= 1).
    { apply (Rmult_le_reg_r (INR (num - 1))); [exact Hpos | ].
      unfold Rdiv. rewrite Rmult_assoc, Rinv_l by lra. lra. }
    assert (Hd : 0 <= stop - start) by lra.
    pose proof (Rmult_le_pos _ _ Hd Hq0).
    pose proof (Rmult_le_compat_l _ _ _ Hd Hq1).
    lra.
  - assert (i = 0%nat) by lia. subst i. simpl. lra.
Qed.

Lemma map_strictly_increasing (f : R -> R) (a : ndarray) (lo : R) :
  (forall x y, lo <= x -> x < y -> f x < f y) ->
  (forall i, (i < length a)%nat -> lo <= nth i a 0) ->
  strictly_increasing a ->
  strictly_increasing (map f a).
Proof.
  intros Hf Hlo Ha i j [Hij Hj].
  rewrite length_map in Hj.
  rewrite !(nth_map_in_range f a _ 0) by lia.
  apply Hf; [apply Hlo; lia | apply Ha; lia].
Qed.

Lemma append_loop_is_map (f : R -> R) (a acc : ndarray) :
  fold_left (fun acc r => acc ++ [f r]) a acc = acc ++ map f a.
Proof.
  revert acc. induction a as [ | r a IH]; intros acc; cbn [fold_left map].
  - rewrite app_nil_r. reflexivity.
  - rewrite IH, <- app_assoc. reflexivity.
Qed.

Lemma mul_nth (a b : ndarray) (i : nat) :
  (i < length a)%nat -> (i < length b)%nat ->
  nth i (np.mul a b) 0 = nth i a 0 * nth i b 0.
Proof.
  revert b i. induction a as [ | x a IH]; intros b i Ha Hb.
  - inversion Ha.
  - destruct b as [ | y b]; [inversion Hb | ].
    destruct i as [ | i]; cbn [np.mul nth]; [reflexivity | ].
    apply IH; cbn [length] in *; lia.
Qed.

(** ** C8: efficiency against compression ratio *)

Lemma cr_range_nth (i : nat) :
  (i < 50)%nat -> nth i cr_range 0 = 6 + INR i * (14 / 49).
Proof.
  intros Hi. unfold cr_range. rewrite linspace_nth by exact Hi.
  replace (INR (50 - 1)) with 49 by (simpl; lra).
  lra.
Qed.

(** The closed form of one sample of the theoretical series: the air-standard
    efficiency grows with the compression ratio [x] when [c = gamma - 1] is
    positive. *)
Lemma efficiency_increasing (c x y : R) :
  0 < c -> 0 < x -> x < y ->
  (1 - 1 / Rpower x c) * 100 < (1 - 1 / Rpower y c) * 100.
Proof.
  intros Hc Hx Hxy.
  assert (Hpx : 0 < Rpower x c) by (unfold Rpower; apply exp_pos).
  assert (Hpy : 0 < Rpower y c) by (unfold Rpower; apply exp_pos).
  assert (Hp : Rpower x c < Rpower y c).
  { apply Rlt_Rpower_l; [exact Hc | split; assumption]. }
  assert (Hinv : / Rpower y c < / Rpower x c).
  { apply Rinv_lt_contravar; [apply Rmult_lt_0_compat; assumption | exact Hp]. }
  lra.
Qed.

Lemma theoretical_efficiency_is_map (fuel_type : string) :
  theoretical_efficiency fuel_type
  = map (fun r =>
           if str_eq fuel_type "Petrol"
           then (1 - 1 / Rpower r (1.4 - 1)) * 100
           else (1 - 1 / Rpower r (1.35 - 1)) * 100 * 0.9)
        cr_range.
Proof.
  unfold theoretical_efficiency, np.mul_scalar, np.scalar_sub, np.scalar_div,
    np.pow_scalar.
  destruct (str_eq fuel_type "Petrol"); cbn zeta; rewrite !map_map; reflexivity.
Qed.

Lemma theoretical_efficiency_length (fuel_type : string) :
  length (theoretical_efficiency fuel_type) = 50%nat.
Proof.
  rewrite theoretical_efficiency_is_map, length_map.
  apply linspace_length.
Qed.

Lemma theoretical_efficiency_strictly_increasing (fuel_type : string) :
  strictly_increasing (theoretical_efficiency fuel_type).
Proof.
  rewrite theoretical_efficiency_is_map.
  apply (map_strictly_increasing _ cr_range 6).
  - intros x y Hx Hxy.
    destruct (str_eq fuel_type "Petrol").
    + apply efficiency_increasing; lra.
    + assert (H := efficiency_increasing (1.35 - 1) x y).
      lapply H; [clear H; intros H | lra].
      specialize (H ltac:(lra) Hxy). lra.
  - intros i Hi. unfold cr_range in *. rewrite linspace_length in Hi.
    apply linspace_bounds; [lra | exact Hi].
  - apply linspace_strictly_increasing. lra.
Qed.

(** C8.  The compression-ratio axis has 50 samples, evenly spaced from 6 to
    20.  At each sample [r] the theoretical efficiency is
    [(1 - 1/r^(gamma-1)) * 100] with [gamma = 1.4] for Petrol, and the same
    with [gamma = 1.35] times [0.9] for Diesel; the practical efficiency is
    [0.6] times the theoretical one at every sample; and both series grow
    strictly along the axis, whatever the fuel type. *)
Theorem C8_efficiency_curves :
  (length cr_range = 50%nat /\
   nth 0 cr_range 0 = 6 /\
   nth 49 cr_range 0 = 20 /\
   (forall i, (i < 50)%nat -> nth i cr_range 0 = 6 + INR i * (14 / 49)) /\
   strictly_increasing cr_range) /\
  (forall i, (i < 50)%nat ->
     let r := nth i cr_range 0 in
     nth i (theoretical_efficiency "Petrol") 0
     = (1 - 1 / Rpower r (1.4 - 1)) * 100 /\
     nth i (theoretical_efficiency "Diesel") 0
     = (1 - 1 / Rpower r (1.35 - 1)) * 100 * 0.9 /\
     (forall fuel_type,
        nth i (practical_efficiency fuel_type) 0
        = 0.6 * nth i (theoretical_efficiency fuel_type) 0)) /\
  (forall fuel_type,
     length (theoretical_efficiency fuel_type) = 50%nat /\
     length (practical_efficiency fuel_type) = 50%nat /\
     strictly_increasing (theoretical_efficiency fuel_type) /\
     strictly_increasing (practical_efficiency fuel_type)).
Proof.
  split; [ | split].
  - split; [apply linspace_length | ].
    split; [apply linspace_first; lia | ].
    split; [apply (linspace_last 6 20 50); lia | ].
    split; [exact cr_range_nth | ].
    apply linspace_strictly_increasing. lra.
  - intros i Hi r.
    assert (Hlen : (i < length cr_range)%nat).
    { unfold cr_range. rewrite linspace_length. exact Hi. }
    split; [ | split].
    + rewrite theoretical_efficiency_is_map.
      rewrite (nth_map_in_range _ cr_range i 0) by exact Hlen.
      reflexivity.
    + rewrite theoretical_efficiency_is_map.
      rewrite (nth_map_in_range _ cr_range i 0) by exact Hlen.
      reflexivity.
    + intros fuel_type. unfold practical_efficiency, np.mul_scalar.
      rewrite (nth_map_in_range _ _ i 0)
        by (rewrite theoretical_efficiency_length; exact Hi).
      ring.
  - intros fuel_type.
    split; [apply theoretical_efficiency_length | ].
    split.
    { unfold practical_efficiency, np.mul_scalar.
      rewrite length_map. apply theoretical_efficiency_length. }
    split; [apply theoretical_efficiency_strictly_increasing | ].
    unfold practical_efficiency, np.mul_scalar.
    intros i j [Hij Hj]. rewrite length_map in Hj.
    rewrite !(nth_map_in_range _ _ _ 0) by lia.
    apply Rmult_lt_compat_r; [lra | ].
    apply theoretical_efficiency_strictly_increasing. lia.
Qed.

(** The first sample, [r = 6], and the first step of the Petrol series. *)
Lemma C8_efficiency_curves_witness :
  nth 0 (theoretical_efficiency "Petrol") 0
  = (1 - 1 / Rpower (nth 0 cr_range 0) (1.4 - 1)) * 100 /\
  nth 0 (practical_efficiency "Petrol") 0
  = 0.6 * nth 0 (theoretical_efficiency "Petrol") 0 /\
  nth 0 (theoretical_efficiency "Petrol") 0
  < nth 1 (theoretical_efficiency "Petrol") 0.
Proof.
  destruct C8_efficiency_curves as (_ & Hpoint & Hseries).
  destruct (Hpoint 0%nat ltac:(lia)) as (Hpetrol & _ & Hpractical).
  destruct (Hseries "Petrol"%string) as (Hlen & _ & Hinc & _).
  split; [exact Hpetrol | ].
  split; [exact (Hpractical "Petrol"%string) | ].
  apply Hinc. rewrite Hlen. lia.
Defined.

(** ** C9: torque and power against RPM *)

Lemma rpm_range_nth (i : nat) :
  (i < 50)%nat -> nth i rpm_range 0 = 1000 + INR i * (5000 / 49).
Proof.
  intros Hi. unfold rpm_range. rewrite linspace_nth by exact Hi.
  replace (INR (50 - 1)) with 49 by (simpl; lra).
  lra.
Qed.

Lemma torque_curve_is_map (max_torque : R) :
  torque_curve max_torque = map (torque_at max_torque) rpm_range.
Proof. unfold torque_curve. apply append_loop_is_map. Qed.

Lemma torque_at_ramp (max_torque r : R) :
  r <= 3000 -> torque_at max_torque r = max_torque * (r / 3000).
Proof.
  intros Hr. unfold torque_at, peak_rpm.
  destruct (Rle_dec r 3000) as [_ | N]; [reflexivity | contradiction].
Qed.

Lemma torque_at_decay (max_torque r : R) :
  3000 < r ->
  torque_at max_torque r = max_torque * exp (- 0.0005 * (r - 3000)).
Proof.
  intros Hr. unfold torque_at, peak_rpm.
  destruct (Rle_dec r 3000) as [L | _]; [lra | reflexivity].
Qed.

(** The dictionary hands the torque and imep arguments back unchanged; the
    chart reads its peak torque from there (line 326). *)
Lemma calculate_passthrough
    (bore stroke num_cylinders : R) (engine_type : string)
    (compression_ratio rpm imep_in torque_in calorific_value fuel_consumption : R)
    (res : PerformanceResult) :
  calculate_engine_performance bore stroke num_cylinders engine_type
    compression_ratio rpm imep_in torque_in calorific_value fuel_consumption
  = Return res ->
  torque res = torque_in /\ imep res = imep_in.
Proof.
  intros Hres.
  destruct (calculate_returned _ _ _ _ _ _ _ _ _ _ _ Hres)
    as ((Hip & Hbp & Hfp) & _).
  rewrite (calculate_returns _ _ _ _ compression_ratio _ _ _ _ _ Hip Hbp Hfp)
    in Hres.
  inversion Hres. split; reflexivity.
Qed.

(** C9.  The RPM axis has 50 samples, evenly spaced from 1000 to 6000, and
    the peak is fixed at 3000.  The torque of the loop body is
    [max_torque * (r/3000)] up to the peak and
    [max_torque * exp(-0.0005*(r-3000))] past it, so it is [max_torque] at
    3000 and, for a positive peak torque (the torque input is at least 10),
    smaller at 6000 than at 3000.  Every entry of the torque curve is the
    loop body at its sample, and every entry of the power curve is
    [(2*pi*r*torque(r))/60000], the brake-power formula of line 125 at that
    sample. *)
Theorem C9_power_torque_curves (max_torque : R) :
  (length rpm_range = 50%nat /\
   nth 0 rpm_range 0 = 1000 /\
   nth 49 rpm_range 0 = 6000 /\
   (forall i, (i < 50)%nat -> nth i rpm_range 0 = 1000 + INR i * (5000 / 49)) /\
   strictly_increasing rpm_range /\
   peak_rpm = 3000) /\
  (forall r, r <= 3000 -> torque_at max_torque r = max_torque * (r / 3000)) /\
  (forall r, 3000 < r ->
     torque_at max_torque r = max_torque * exp (- 0.0005 * (r - 3000))) /\
  torque_at max_torque 3000 = max_torque /\
  (0 < max_torque -> torque_at max_torque 6000 < torque_at max_torque 3000) /\
  (length (torque_curve max_torque) = 50%nat /\
   length (power_curve max_torque) = 50%nat) /\
  (forall i, (i < 50)%nat ->
     let r := nth i rpm_range 0 in
     nth i (torque_curve max_torque) 0 = torque_at max_torque r /\
     nth i (power_curve max_torque) 0
     = (2 * PI * r * torque_at max_torque r) / 60000 /\
     nth i (power_curve max_torque) 0
     = Calc.brake_power r (torque_at max_torque r)).
Proof.
  assert (Hlen : length rpm_range = 50%nat) by apply linspace_length.
  assert (Hpeak : torque_at max_torque 3000 = max_torque).
  { rewrite torque_at_ramp by lra. field. }
  assert (Htlen : length (torque_curve max_torque) = 50%nat).
  { rewrite torque_curve_is_map, length_map. exact Hlen. }
  assert (Hplen : length (power_curve max_torque) = 50%nat).
  { unfold power_curve, np.div_scalar, np.scalar_mul.
    rewrite length_map, torque_curve_is_map.
    generalize rpm_range Hlen. intros a Ha.
    clear - Ha. revert Ha. generalize 50%nat.
    induction a as [ | x a IH]; intros k Hk; cbn in *; [exact Hk | ].
    destruct k as [ | k]; [discriminate | ].
    f_equal. apply IH. congruence. }
  split.
  { split; [exact Hlen | ].
    split; [apply linspace_first; lia | ].
    split; [apply (linspace_last 1000 6000 50); lia | ].
    split; [exact rpm_range_nth | ].
    split; [apply linspace_strictly_increasing; lra | reflexivity]. }
  split; [intros r; apply torque_at_ramp | ].
  split; [intros r; apply torque_at_decay | ].
  split; [exact Hpeak | ].
  split.
  { intros Hpos. rewrite Hpeak, torque_at_decay by lra.
    assert (Hexp : exp (- 0.0005 * (6000 - 3000)) < 1).
    { rewrite <- exp_0. apply exp_increasing. lra. }
    rewrite <- (Rmult_1_r max_torque) at 2.
    apply Rmult_lt_compat_l; assumption. }
  split; [split; assumption | ].
  intros i Hi r.
  assert (Ht : nth i (torque_curve max_torque) 0 = torque_at max_torque r).
  { rewrite torque_curve_is_map.
    apply (nth_map_in_range _ rpm_range i 0). rewrite Hlen. exact Hi. }
  assert (Hp : nth i (power_curve max_torque) 0
               = (2 * PI * r * torque_at max_torque r) / 60000).
  { unfold power_curve, np.div_scalar.
    rewrite (nth_map_in_range _ _ i 0).
    - rewrite mul_nth.
      + rewrite Ht. unfold np.scalar_mul.
        rewrite (nth_map_in_range _ rpm_range i 0) by (rewrite Hlen; exact Hi).
        reflexivity.
      + unfold np.scalar_mul. rewrite length_map, Hlen. exact Hi.
      + rewrite Htlen. exact Hi.
    - unfold power_curve, np.div_scalar in Hplen.
      rewrite length_map in Hplen. rewrite Hplen. exact Hi. }
  split; [exact Ht | ].
  split; [exact Hp | ].
  rewrite Hp. unfold Calc.brake_power. f_equal. lra.
Qed.

(** The default page: peak torque 150 Nm, read back from the dictionary. *)
Lemma C9_power_torque_curves_witness :
  exists res,
    calculate_engine_performance 80 90 4 "4-Stroke" 9.5 3000 8 150 44000 5
    = Return res /\
    torque res = 150 /\
    torque_at (torque res) 3000 = 150 /\
    torque_at (torque res) 6000 < torque_at (torque res) 3000 /\
    nth 0 (power_curve (torque res)) 0
    = (2 * PI * 1000 * (150 * (1000 / 3000))) / 60000.
Proof.
  destruct (default_call_returns "4-Stroke" 9.5) as [res Hres].
  exists res. split; [exact Hres | ].
  destruct (calculate_passthrough _ _ _ _ _ _ _ _ _ _ _ Hres) as [Ht _].
  rewrite Ht.
  destruct (C9_power_torque_curves 150)
    as ((_ & Hfirst & _) & Hramp & _ & Hpeak & Hdrop & _ & Hsample).
  split; [reflexivity | ].
  split; [exact Hpeak | ].
  split; [apply Hdrop; lra | ].
  destruct (Hsample 0%nat ltac:(lia)) as (_ & Hp & _).
  rewrite Hp. cbn zeta. rewrite Hfirst.
  rewrite Hramp by lra. reflexivity.
Defined.

(* ------------------------------------------------------------------ *)
(** * Further properties of [calculate_engine_performance] *)

Ltac returned_record H :=
  apply calculate_returned_record in H; cbv zeta in H;
  let Hip := fresh "Hip" in
  let Hbp := fresh "Hbp" in
  let Hfp := fresh "Hfp" in
  destruct H as ((Hip & Hbp & Hfp) & ->);
  cbn [swept_volume indicated_power brake_power friction_power
       mechanical_efficiency brake_thermal_efficiency
       indicated_thermal_efficiency bsfc isfc torque imep].

(** ** On the ranges of the page's inputs *)

(** X1.  On the ranges of the page's inputs the call fails exactly when the
    RPM input is 0: it raises [ZeroDivisionError] there and returns a
    dictionary everywhere else. *)
Theorem on_page_call_fails_exactly_at_rpm_zero (i : Inputs) :
  within_widget_ranges i ->
  (results i = Raise ZeroDivisionError <-> in_rpm i = 0) /\
  ((exists res, results i = Return res) <-> in_rpm i <> 0).
Proof.
  intros Hrange.
  assert (Hr : 0 <= in_rpm i) by (destruct Hrange as (_ & _ & _ & _ & _ & Hr & _); lra).
  assert (Hzero : in_rpm i = 0 -> results i = Raise ZeroDivisionError).
  { intros Hz. unfold results. apply calculate_raises. right; left.
    rewrite Hz. unfold Calc.brake_power, Rdiv. ring. }
  assert (Hpos : in_rpm i <> 0 -> exists res, results i = Return res).
  { intros Hnz.
    apply (positive_rpm_within_ranges_returns i Hrange). lra. }
  split; split.
  - intros Hraise.
    destruct (Req_dec_T (in_rpm i) 0) as [E | N]; [exact E | ].
    destruct (Hpos N) as [res Hres]. rewrite Hres in Hraise. discriminate.
  - exact Hzero.
  - intros [res Hres] Hz. rewrite (Hzero Hz) in Hres. discriminate.
  - exact Hpos.
Qed.

(** The default page returns; the same page with the RPM input at 0
    raises. *)
Lemma on_page_call_fails_exactly_at_rpm_zero_witness :
  results (defaults_at_rpm 0) = Raise ZeroDivisionError /\
  exists res, results (defaults_at_rpm 3000) = Return res.
Proof.
  split.
  - apply (proj1 (on_page_call_fails_exactly_at_rpm_zero (defaults_at_rpm 0)
                    (defaults_at_rpm_within_ranges 0 ltac:(lia)))).
    reflexivity.
  - apply (proj2 (on_page_call_fails_exactly_at_rpm_zero (defaults_at_rpm 3000)
                    (defaults_at_rpm_within_ranges 3000 ltac:(lia)))).
    cbn. lra.
Defined.

(** X6.  With a positive indicated power, the reported friction power is
    negative exactly when the reported mechanical efficiency is above 100 %,
    and zero exactly when it is 100 %: neither is clamped, and they go out of
    range together. *)
Theorem negative_friction_iff_efficiency_above_100
    (bore stroke num_cylinders : R) (engine_type : string)
    (compression_ratio rpm imep_in torque_in calorific_value fuel_consumption : R)
    (res : PerformanceResult) :
  calculate_engine_performance bore stroke num_cylinders engine_type
    compression_ratio rpm imep_in torque_in calorific_value fuel_consumption
  = Return res ->
  0 < indicated_power res ->
  (friction_power res < 0 <-> 100 < mechanical_efficiency res) /\
  (friction_power res = 0 <-> mechanical_efficiency res = 100).
Proof.
  intros Hres. returned_record Hres. intros Hpos.
  unfold Calc.friction_power.
  set (ip := Calc.indicated_power bore stroke num_cylinders engine_type rpm
               imep_in) in *.
  set (bp := Calc.brake_power rpm torque_in) in *.
  assert (Hq : bp / ip * 100 - 100 = (bp - ip) * (100 / ip)) by (field; lra).
  assert (Hc : 0 < 100 / ip) by (apply Rdiv_lt_0_compat; lra).
  split; split; intros H.
  - assert (0 < (bp - ip) * (100 / ip)) by (apply Rmult_lt_0_compat; lra). lra.
  - destruct (Rle_or_lt bp ip) as [Hle | Hlt]; [ | lra].
    assert ((bp - ip) * (100 / ip) <= 0).
    { rewrite <- (Rmult_0_l (100 / ip)). apply Rmult_le_compat_r; lra. }
    lra.
  - replace bp with ip by lra. field. lra.
  - assert (Hz : (bp - ip) * (100 / ip) = 0) by lra.
    apply Rmult_integral in Hz. lra.
Qed.

(** The default page: a torque of 150 Nm is more than an imep of 8 bar can
    deliver, so the friction power is negative and the efficiency above
    100 %. *)
Lemma negative_friction_iff_efficiency_above_100_witness :
  exists res,
    calculate_engine_performance 80 90 4 "4-Stroke" 9.5 3000 8 150 44000 5
    = Return res /\
    (friction_power res < 0 <-> 100 < mechanical_efficiency res).
Proof.
  destruct (default_call_returns "4-Stroke" 9.5) as [res Hres].
  exists res. split; [exact Hres | ].
  refine (proj1 (negative_friction_iff_efficiency_above_100
                   _ _ _ _ _ _ _ _ _ _ res Hres _)).
  destruct (calculate_returned _ _ _ _ _ _ _ _ _ _ _ Hres)
    as (_ & _ & Hip & _).
  rewrite Hip.
  apply (denominators_positive 80 90 4 "4-Stroke" 3000 8 150 44000 5); lra.
Defined.

(** X8.  On the ranges of the page's inputs, with the RPM input above 0,
    the call returns and every reported quantity other than the friction
    power is positive. *)
Theorem on_page_outputs_are_positive (i : Inputs) :
  within_widget_ranges i -> 0 < in_rpm i ->
  exists res,
    results i = Return res /\
    0 < swept_volume res /\ 0 < indicated_power res /\ 0 < brake_power res /\
    0 < mechanical_efficiency res /\ 0 < brake_thermal_efficiency res /\
    0 < indicated_thermal_efficiency res /\ 0 < bsfc res /\ 0 < isfc res /\
    0 < torque res /\ 0 < imep res.
Proof.
  intros Hrange Hr.
  destruct (positive_rpm_within_ranges_returns i Hrange Hr)
    as ((Hip & Hbp & Hfp) & _).
  destruct Hrange as (Hb & Hs & (_ & Hn) & _ & _ & _ & Hi & Ht & (_ & Hc) & Hf).
  eexists. split.
  { unfold results. apply calculate_returns; apply Rgt_not_eq; assumption. }
  cbn [swept_volume indicated_power brake_power mechanical_efficiency
       brake_thermal_efficiency indicated_thermal_efficiency bsfc isfc
       torque imep].
  assert (Hsv : 0 < Calc.total_swept_volume (in_bore i) (in_stroke i)
                      (in_num_cylinders i)).
  { rewrite swept_volume_closed_form. pose proof PI_RGT_0.
    apply Rmult_lt_0_compat; [ | lra].
    apply Rmult_lt_0_compat; [ | lra].
    apply Rmult_lt_0_compat; [ | lra].
    apply Rmult_lt_0_compat; [lra | apply pow_lt; lra]. }
  assert (Hfuel : 0 < in_fuel_consumption i * 1000) by lra.
  assert (Ht0 : 0 < in_torque i) by lra.
  assert (Hi0 : 0 < in_imep i) by lra.
  repeat match goal with
         | |- _ /\ _ => split
         | |- 0 < _ / _ * 100 =>
             apply Rmult_lt_0_compat; [apply Rdiv_lt_0_compat | lra]
         | |- 0 < _ / _ => apply Rdiv_lt_0_compat
         end; assumption.
Qed.

Lemma on_page_outputs_are_positive_witness :
  exists res,
    results defaults = Return res /\
    0 < mechanical_efficiency res /\ 0 < bsfc res.
Proof.
  destruct (on_page_outputs_are_positive (defaults_at_rpm 3000)
              (defaults_at_rpm_within_ranges 3000 ltac:(lia)))
    as (res & Hres & _ & _ & _ & Hm & _ & _ & Hbs & _); [cbn; lra | ].
  exists res. split; [exact Hres | split; assumption].
Defined.

(** The page with the torque input set to [t], everything else as in [i]. *)
Lemma with_torque_within_ranges (i : Inputs) (t : R) :
  within_widget_ranges i -> 10 <= t <= 1000 ->
  within_widget_ranges {|
    in_bore := in_bore i; in_stroke := in_stroke i;
    in_num_cylinders := in_num_cylinders i; in_engine_type := in_engine_type i;
    in_compression_ratio := in_compression_ratio i; in_rpm := in_rpm i;
    in_imep := in_imep i; in_torque := t;
    in_calorific_value := in_calorific_value i;
    in_fuel_consumption := in_fuel_consumption i |}.
Proof.
  intros (Hb & Hs & Hn & He & Hc & Hr & Hi & _ & Hcv & Hf) Ht.
  unfold within_widget_ranges; cbn.
  repeat split; tauto || lra.
Qed.

(** X9.  On the ranges of the page's inputs, with the RPM input above 0, a
    higher torque input never lowers the brake power, the mechanical
    efficiency or the brake thermal efficiency, never raises BSFC or the
    friction power, and leaves the displacement and the indicated
    quantities as they are. *)
Theorem on_page_more_torque_never_less_brake_power
    (i : Inputs) (torque_hi : R) :
  within_widget_ranges i -> 0 < in_rpm i ->
  in_torque i <= torque_hi -> torque_hi <= 1000 ->
  exists res_lo res_hi,
    results i = Return res_lo /\
    calculate_engine_performance
      (in_bore i) (in_stroke i) (in_num_cylinders i) (in_engine_type i)
      (in_compression_ratio i) (in_rpm i) (in_imep i) torque_hi
      (in_calorific_value i) (in_fuel_consumption i)
    = Return res_hi /\
    brake_power res_lo <= brake_power res_hi /\
    mechanical_efficiency res_lo <= mechanical_efficiency res_hi /\
    brake_thermal_efficiency res_lo <= brake_thermal_efficiency res_hi /\
    bsfc res_hi <= bsfc res_lo /\
    friction_power res_hi <= friction_power res_lo /\
    indicated_power res_lo = indicated_power res_hi /\
    indicated_thermal_efficiency res_lo = indicated_thermal_efficiency res_hi /\
    isfc res_lo = isfc res_hi /\
    swept_volume res_lo = swept_volume res_hi.
Proof.
  intros Hrange Hr Hle Hhi.
  assert (Hlo : 10 <= in_torque i).
  { destruct Hrange as (_ & _ & _ & _ & _ & _ & _ & Ht & _). lra. }
  destruct (positive_rpm_within_ranges_returns i Hrange Hr)
    as ((Hip & Hbp & Hfp) & _).
  pose proof (with_torque_within_ranges i torque_hi Hrange ltac:(lra)) as Hrange'.
  destruct (positive_rpm_within_ranges_returns _ Hrange' Hr)
    as ((_ & Hbp' & _) & _).
  cbn [in_rpm in_torque] in Hbp'.
  assert (Hbple : Calc.brake_power (in_rpm i) (in_torque i)
                  <= Calc.brake_power (in_rpm i) torque_hi).
  { unfold Calc.brake_power. pose proof PI_RGT_0.
    apply Rmult_le_compat_r; [apply Rlt_le, Rinv_0_lt_compat; lra | ].
    apply Rmult_le_compat_l; [ | exact Hle].
    apply Rlt_le, Rmult_lt_0_compat; lra. }
  eexists. eexists.
  split; [unfold results; apply calculate_returns; apply Rgt_not_eq; assumption | ].
  split; [apply calculate_returns; apply Rgt_not_eq; assumption | ].
  cbn [swept_volume indicated_power brake_power friction_power
       mechanical_efficiency brake_thermal_efficiency
       indicated_thermal_efficiency bsfc isfc].
  set (ip := Calc.indicated_power (in_bore i) (in_stroke i) (in_num_cylinders i)
               (in_engine_type i) (in_rpm i) (in_imep i)) in *.
  set (fp := Calc.fuel_power (in_fuel_consumption i) (in_calorific_value i)) in *.
  set (b := Calc.brake_power (in_rpm i) (in_torque i)) in *.
  set (b' := Calc.brake_power (in_rpm i) torque_hi) in *.
  assert (Hfuel : 0 <= in_fuel_consumption i * 1000).
  { destruct Hrange as (_ & _ & _ & _ & _ & _ & _ & _ & _ & Hf). lra. }
  split; [exact Hbple | ].
  split.
  { apply Rmult_le_compat_r; [lra | ].
    apply Rmult_le_compat_r; [apply Rlt_le, Rinv_0_lt_compat; exact Hip | exact Hbple]. }
  split.
  { apply Rmult_le_compat_r; [lra | ].
    apply Rmult_le_compat_r; [apply Rlt_le, Rinv_0_lt_compat; exact Hfp | exact Hbple]. }
  split.
  { apply Rmult_le_compat_l; [exact Hfuel | ].
    apply Rinv_le_contravar; assumption. }
  split; [unfold Calc.friction_power; lra | ].
  repeat split; reflexivity.
Qed.

Lemma on_page_more_torque_never_less_brake_power_witness :
  exists res_lo res_hi,
    results defaults = Return res_lo /\
    calculate_engine_performance 80 90 4 "4-Stroke" 9.5 3000 8 200 44000 5
    = Return res_hi /\
    brake_power res_lo <= brake_power res_hi /\
    bsfc res_hi <= bsfc res_lo.
Proof.
  destruct (on_page_more_torque_never_less_brake_power
              (defaults_at_rpm 3000) 200
              (defaults_at_rpm_within_ranges 3000 ltac:(lia)))
    as (res_lo & res_hi & Hlo & Hhi & Hbp & _ & _ & Hbs & _); try (cbn; lra).
  exists res_lo, res_hi.
  split; [exact Hlo | split; [exact Hhi | split; assumption]].
Defined.

(* ------------------------------------------------------------------ *)
(** * Further properties of the two charts *)

(** ** The efficiency series *)

Lemma efficiency_sample_between_0_and_100 (c x : R) :
  0 < c -> 1 < x ->
  0 < (1 - 1 / Rpower x c) * 100 < 100.
Proof.
  intros Hc Hx.
  assert (Hp : 1 < Rpower x c).
  { rewrite <- (Rpower_O x) by lra. apply Rpower_lt; assumption. }
  assert (Hinv : 0 < / Rpower x c < 1).
  { split; [apply Rinv_0_lt_compat; lra | ].
    rewrite <- Rinv_1. apply Rinv_lt_contravar; lra. }
  lra.
Qed.

Lemma cr_range_sample_above_1 (i : nat) :
  (i < 50)%nat -> 1 < nth i cr_range 0.
Proof.
  intros Hi.
  pose proof (linspace_bounds 6 20 50 i ltac:(lra) Hi) as H.
  fold cr_range in H. lra.
Qed.

Lemma theoretical_efficiency_nth (fuel_type : string) (i : nat) :
  (i < 50)%nat ->
  nth i (theoretical_efficiency fuel_type) 0
  = if str_eq fuel_type "Petrol"
    then (1 - 1 / Rpower (nth i cr_range 0) (1.4 - 1)) * 100
    else (1 - 1 / Rpower (nth i cr_range 0) (1.35 - 1)) * 100 * 0.9.
Proof.
  intros Hi.
  rewrite theoretical_efficiency_is_map.
  rewrite (nth_map_in_range _ cr_range i 0)
    by (unfold cr_range; rewrite linspace_length; exact Hi).
  reflexivity.
Qed.

Lemma practical_efficiency_nth (fuel_type : string) (i : nat) :
  (i < 50)%nat ->
  nth i (practical_efficiency fuel_type) 0
  = nth i (theoretical_efficiency fuel_type) 0 * 0.6.
Proof.
  intros Hi. unfold practical_efficiency, np.mul_scalar.
  rewrite (nth_map_in_range _ _ i 0)
    by (rewrite theoretical_efficiency_length; exact Hi).
  reflexivity.
Qed.

(** X10.  Every point drawn on the efficiency chart is a proper percentage:
    the theoretical series stays strictly between 0 and 100, the practical
    one strictly between 0 and 60 and strictly below the theoretical one,
    whatever the fuel type. *)
Theorem efficiency_series_are_percentages (fuel_type : string) (i : nat) :
  (i < 50)%nat ->
  0 < nth i (theoretical_efficiency fuel_type) 0 < 100 /\
  0 < nth i (practical_efficiency fuel_type) 0 < 60 /\
  nth i (practical_efficiency fuel_type) 0
  < nth i (theoretical_efficiency fuel_type) 0.
Proof.
  intros Hi.
  rewrite practical_efficiency_nth, theoretical_efficiency_nth by exact Hi.
  pose proof (cr_range_sample_above_1 i Hi) as Hr.
  destruct (str_eq fuel_type "Petrol").
  - pose proof (efficiency_sample_between_0_and_100 (1.4 - 1)
                  (nth i cr_range 0) ltac:(lra) Hr).
    lra.
  - pose proof (efficiency_sample_between_0_and_100 (1.35 - 1)
                  (nth i cr_range 0) ltac:(lra) Hr).
    lra.
Qed.

Lemma efficiency_series_are_percentages_witness :
  0 < nth 0 (theoretical_efficiency "Petrol") 0 < 100 /\
  0 < nth 49 (practical_efficiency "Diesel") 0 < 60.
Proof.
  split.
  - apply (efficiency_series_are_percentages "Petrol" 0). lia.
  - apply (efficiency_series_are_percentages "Diesel" 49). lia.
Defined.

(** X11.  At every compression ratio on the axis the Diesel series lies
    strictly below the Petrol series, theoretical and practical alike (the
    source notes "Diesel typically lower"). *)
Theorem diesel_series_below_petrol_series (i : nat) :
  (i < 50)%nat ->
  nth i (theoretical_efficiency "Diesel") 0
  < nth i (theoretical_efficiency "Petrol") 0 /\
  nth i (practical_efficiency "Diesel") 0
  < nth i (practical_efficiency "Petrol") 0.
Proof.
  intros Hi.
  rewrite !practical_efficiency_nth, !theoretical_efficiency_nth by exact Hi.
  cbn [str_eq String.eqb Ascii.eqb Bool.eqb].
  pose proof (cr_range_sample_above_1 i Hi) as Hr.
  set (r := nth i cr_range 0) in *.
  pose proof (efficiency_sample_between_0_and_100 (1.35 - 1) r ltac:(lra) Hr)
    as Hd.
  assert (Hpow : Rpower r (1.35 - 1) < Rpower r (1.4 - 1)).
  { apply Rpower_lt; lra. }
  assert (Hpos : 0 < Rpower r (1.35 - 1)) by (unfold Rpower; apply exp_pos).
  assert (Hinv : / Rpower r (1.4 - 1) < / Rpower r (1.35 - 1)).
  { apply Rinv_lt_contravar; [apply Rmult_lt_0_compat; lra | exact Hpow]. }
  lra.
Qed.

Lemma diesel_series_below_petrol_series_witness :
  nth 0 (theoretical_efficiency "Diesel") 0
  < nth 0 (theoretical_efficiency "Petrol") 0.
Proof.
  apply (diesel_series_below_petrol_series 0). lia.
Defined.

(** ** The torque and power curves *)

Lemma rpm_range_length : length rpm_range = 50%nat.
Proof. apply linspace_length. Qed.

Lemma rpm_range_increasing (i j : nat) :
  (i < j < 50)%nat -> nth i rpm_range 0 < nth j rpm_range 0.
Proof.
  intros Hij. apply (linspace_strictly_increasing 1000 6000 50); [lra | ].
  rewrite linspace_length. exact Hij.
Qed.

(** Samples 0 to 19 lie below the peak speed, samples 20 to 49 above it. *)
Lemma rpm_sample_before_peak (i : nat) :
  (i <= 19)%nat -> 1000 <= nth i rpm_range 0 <= 144000 / 49.
Proof.
  intros Hi. rewrite rpm_range_nth by lia.
  assert (H0 : 0 <= INR i) by apply pos_INR.
  assert (H19 : INR i <= 19).
  { replace 19 with (INR 19) by (simpl; lra). apply le_INR. exact Hi. }
  lra.
Qed.

Lemma rpm_sample_after_peak (i : nat) :
  (20 <= i < 50)%nat -> 149000 / 49 <= nth i rpm_range 0 <= 6000.
Proof.
  intros [Hlo Hhi]. rewrite rpm_range_nth by lia.
  assert (H20 : 20 <= INR i).
  { replace 20 with (INR 20) by (simpl; lra). apply le_INR. exact Hlo. }
  assert (H49 : INR i <= 49).
  { replace 49 with (INR 49) by (simpl; lra). apply le_INR. lia. }
  lra.
Qed.

Lemma torque_curve_nth (max_torque : R) (i : nat) :
  (i < 50)%nat ->
  nth i (torque_curve max_torque) 0 = torque_at max_torque (nth i rpm_range 0).
Proof.
  intros Hi. rewrite torque_curve_is_map.
  rewrite (nth_map_in_range _ rpm_range i 0) by (rewrite rpm_range_length; exact Hi).
  reflexivity.
Qed.

Lemma power_curve_nth (max_torque : R) (i : nat) :
  (i < 50)%nat ->
  nth i (power_curve max_torque) 0
  = 2 * PI * nth i rpm_range 0 * torque_at max_torque (nth i rpm_range 0)
    / 60000.
Proof.
  intros Hi. unfold power_curve, np.div_scalar, np.scalar_mul.
  rewrite torque_curve_is_map.
  assert (Hlen : forall a : ndarray,
            length (np.mul (map (fun x => 2 * PI * x) a)
                           (map (torque_at max_torque) a)) = length a).
  { induction a as [ | x a IH]; cbn; [reflexivity | f_equal; exact IH]. }
  rewrite (nth_map_in_range _ _ i 0) by (rewrite Hlen, rpm_range_length; exact Hi).
  rewrite mul_nth by (rewrite length_map, rpm_range_length; exact Hi).
  rewrite !(nth_map_in_range _ rpm_range i 0)
    by (rewrite rpm_range_length; exact Hi).
  reflexivity.
Qed.

(** Past 2000 rpm, [r * exp(-0.0005 * (r - 3000))] falls as [r] grows. *)
Lemma speed_times_decay_falls (x y : R) :
  2000 <= x -> x < y ->
  y * exp (- 0.0005 * (y - 3000)) < x * exp (- 0.0005 * (x - 3000)).
Proof.
  intros Hx Hxy.
  replace (- 0.0005 * (y - 3000))
    with (- 0.0005 * (x - 3000) + - (0.0005 * (y - x))) by lra.
  rewrite exp_plus, exp_Ropp.
  pose proof (exp_pos (- 0.0005 * (x - 3000))) as He.
  set (e := exp (- 0.0005 * (x - 3000))) in *.
  assert (Hg : 1 + 0.0005 * (y - x) < exp (0.0005 * (y - x))).
  { apply exp_ineq1. lra. }
  set (g := exp (0.0005 * (y - x))) in *.
  assert (Hgpos : 0 < g) by lra.
  assert (Hyg : y * / g < x).
  { apply (Rmult_lt_reg_r g); [exact Hgpos | ].
    rewrite Rmult_assoc, Rinv_l by lra. rewrite Rmult_1_r.
    assert (x * (1 + 0.0005 * (y - x)) < x * g).
    { apply Rmult_lt_compat_l; lra. }
    assert (0 <= (x - 2000) * (y - x)) by (apply Rmult_le_pos; lra).
    lra. }
  replace (y * (e * / g)) with (y * / g * e) by ring.
  apply Rmult_lt_compat_r; assumption.
Qed.

(** The first sample past the peak still carries more than 48/49 of the peak
    torque. *)
Lemma decay_at_first_sample_after_peak (r : R) :
  3000 < r <= 149000 / 49 -> 48 / 49 < exp (- 0.0005 * (r - 3000)).
Proof.
  intros [Hlo Hhi].
  pose proof (exp_ineq1 (- 0.0005 * (r - 3000)) ltac:(lra)). lra.
Qed.

Lemma torque_at_le_max (max_torque r : R) :
  0 < max_torque ->
  torque_at max_torque r <= max_torque /\
  (torque_at max_torque r = max_torque <-> r = 3000).
Proof.
  intros Hpos.
  destruct (Rle_or_lt r 3000) as [Hle | Hgt].
  - rewrite torque_at_ramp by exact Hle.
    assert (Heq : max_torque * (r / 3000) - max_torque
                  = max_torque * ((r - 3000) / 3000)) by field.
    assert (Hsign : max_torque * ((r - 3000) / 3000) <= 0).
    { rewrite <- (Rmult_0_r max_torque). apply Rmult_le_compat_l; lra. }
    split; [lra | ].
    split.
    + intros H.
      assert (Hz : max_torque * ((r - 3000) / 3000) = 0) by lra.
      apply Rmult_integral in Hz. lra.
    + intros ->. field.
  - rewrite torque_at_decay by exact Hgt.
    assert (Hexp : exp (- 0.0005 * (r - 3000)) < 1).
    { rewrite <- exp_0. apply exp_increasing. lra. }
    assert (Hlt : max_torque * exp (- 0.0005 * (r - 3000)) < max_torque).
    { rewrite <- (Rmult_1_r max_torque) at 2.
      apply Rmult_lt_compat_l; assumption. }
    split; [lra | split; intros H; lra].
Qed.

(** X12.  For a positive peak torque the synthetic torque never exceeds it,
    at any speed, and reaches it at 3000 rpm only; it is positive at every
    positive speed. *)
Theorem torque_at_most_peak_torque (max_torque r : R) :
  0 < max_torque ->
  torque_at max_torque r <= max_torque /\
  (torque_at max_torque r = max_torque <-> r = 3000) /\
  (0 < r -> 0 < torque_at max_torque r).
Proof.
  intros Hpos.
  destruct (torque_at_le_max max_torque r Hpos) as [Hle Heq].
  split; [exact Hle | split; [exact Heq | ]].
  intros Hr.
  destruct (Rle_or_lt r 3000) as [Hlow | Hhigh].
  - rewrite torque_at_ramp by exact Hlow.
    apply Rmult_lt_0_compat; [exact Hpos | lra].
  - rewrite torque_at_decay by exact Hhigh.
    apply Rmult_lt_0_compat; [exact Hpos | apply exp_pos].
Qed.

Lemma torque_at_most_peak_torque_witness :
  torque_at 150 1000 <= 150 /\ 0 < torque_at 150 1000.
Proof.
  destruct (torque_at_most_peak_torque 150 1000) as (Hle & _ & Hpos); [lra | ].
  split; [exact Hle | apply Hpos; lra].
Defined.

Lemma rpm_sample_20 : nth 20 rpm_range 0 = 149000 / 49.
Proof.
  rewrite rpm_range_nth by lia.
  replace (INR 20) with 20 by (simpl; lra). lra.
Qed.

Lemma torque_sample_range (max_torque : R) (i : nat) :
  0 < max_torque -> (i < 50)%nat ->
  0 < torque_at max_torque (nth i rpm_range 0) < max_torque.
Proof.
  intros Hpos Hi.
  destruct (Nat.le_gt_cases i 19) as [Hlo | Hhi].
  - pose proof (rpm_sample_before_peak i Hlo) as [Ha Hb].
    rewrite torque_at_ramp by lra.
    set (r := nth i rpm_range 0) in *.
    assert (Hq : 0 < r / 3000 < 1) by lra.
    split.
    + apply Rmult_lt_0_compat; lra.
    + rewrite <- (Rmult_1_r max_torque) at 2.
      apply Rmult_lt_compat_l; lra.
  - pose proof (rpm_sample_after_peak i ltac:(lia)) as [Ha Hb].
    rewrite torque_at_decay by lra.
    split; [apply Rmult_lt_0_compat; [exact Hpos | apply exp_pos] | ].
    rewrite <- (Rmult_1_r max_torque) at 2.
    apply Rmult_lt_compat_l; [exact Hpos | ].
    rewrite <- exp_0. apply exp_increasing. lra.
Qed.

Lemma torque_sample_rising (max_torque : R) (i j : nat) :
  0 < max_torque -> (i < j <= 20)%nat ->
  torque_at max_torque (nth i rpm_range 0)
  < torque_at max_torque (nth j rpm_range 0).
Proof.
  intros Hpos [Hij Hj].
  pose proof (rpm_sample_before_peak i ltac:(lia)) as [Ha Hb].
  rewrite (torque_at_ramp _ (nth i rpm_range 0)) by lra.
  destruct (Nat.le_gt_cases j 19) as [Hlo | Hhi].
  - pose proof (rpm_sample_before_peak j Hlo) as [Ha' Hb'].
    rewrite torque_at_ramp by lra.
    apply Rmult_lt_compat_l; [exact Hpos | ].
    pose proof (rpm_range_increasing i j ltac:(lia)). lra.
  - assert (j = 20%nat) by lia. subst j.
    rewrite rpm_sample_20, torque_at_decay by lra.
    pose proof (decay_at_first_sample_after_peak (149000 / 49) ltac:(lra)) as He.
    apply Rle_lt_trans with (max_torque * (48 / 49)).
    + apply Rmult_le_compat_l; lra.
    + apply Rmult_lt_compat_l; assumption.
Qed.

Lemma torque_sample_falling (max_torque : R) (i j : nat) :
  0 < max_torque -> (20 <= i < j)%nat -> (j < 50)%nat ->
  torque_at max_torque (nth j rpm_range 0)
  < torque_at max_torque (nth i rpm_range 0).
Proof.
  intros Hpos Hij Hj.
  pose proof (rpm_sample_after_peak i ltac:(lia)) as [Ha _].
  pose proof (rpm_sample_after_peak j ltac:(lia)) as [Ha' _].
  pose proof (rpm_range_increasing i j ltac:(lia)) as Hinc.
  rewrite !torque_at_decay by lra.
  apply Rmult_lt_compat_l; [exact Hpos | ].
  apply exp_increasing. lra.
Qed.

(** X13.  For a positive peak torque, the drawn torque curve rises strictly
    from its first point to point 20 (about 3041 rpm) and falls strictly from
    there to its last point; every drawn torque is positive and strictly
    below the peak torque, because 3000 rpm is not among the 50 speeds. *)
Theorem torque_curve_rises_then_falls (max_torque : R) :
  0 < max_torque ->
  (forall i j, (i < j <= 20)%nat ->
     nth i (torque_curve max_torque) 0 < nth j (torque_curve max_torque) 0) /\
  (forall i j, (20 <= i < j)%nat -> (j < 50)%nat ->
     nth j (torque_curve max_torque) 0 < nth i (torque_curve max_torque) 0) /\
  (forall i, (i < 50)%nat ->
     0 < nth i (torque_curve max_torque) 0 < max_torque /\
     nth i rpm_range 0 <> 3000).
Proof.
  intros Hpos.
  split; [ | split].
  - intros i j Hij. rewrite !torque_curve_nth by lia.
    apply torque_sample_rising; assumption.
  - intros i j Hij Hj. rewrite !torque_curve_nth by lia.
    apply torque_sample_falling; assumption.
  - intros i Hi. rewrite torque_curve_nth by exact Hi.
    split; [apply torque_sample_range; assumption | ].
    destruct (Nat.le_gt_cases i 19) as [Hlo | Hhi].
    + pose proof (rpm_sample_before_peak i Hlo). lra.
    + pose proof (rpm_sample_after_peak i ltac:(lia)). lra.
Qed.

Lemma torque_curve_rises_then_falls_witness :
  nth 19 (torque_curve 150) 0 < nth 20 (torque_curve 150) 0 /\
  nth 21 (torque_curve 150) 0 < nth 20 (torque_curve 150) 0 /\
  nth 20 (torque_curve 150) 0 < 150.
Proof.
  destruct (torque_curve_rises_then_falls 150) as (Hup & Hdown & Hrange);
    [lra | ].
  split; [apply Hup; lia | ].
  split; [apply Hdown; lia | ].
  apply (Hrange 20%nat). lia.
Defined.

(** X14.  For a positive peak torque, the drawn power curve is positive,
    rises strictly up to point 20 and falls strictly after it: the largest
    power drawn is at about 3041 rpm. *)
Theorem power_curve_rises_then_falls (max_torque : R) :
  0 < max_torque ->
  (forall i j, (i < j <= 20)%nat ->
     nth i (power_curve max_torque) 0 < nth j (power_curve max_torque) 0) /\
  (forall i j, (20 <= i < j)%nat -> (j < 50)%nat ->
     nth j (power_curve max_torque) 0 < nth i (power_curve max_torque) 0) /\
  (forall i, (i < 50)%nat -> 0 < nth i (power_curve max_torque) 0).
Proof.
  intros Hpos.
  pose proof PI_RGT_0 as Hpi.
  assert (Hsample : forall i, (i < 50)%nat -> 1000 <= nth i rpm_range 0).
  { intros i Hi.
    pose proof (linspace_bounds 1000 6000 50 i ltac:(lra) Hi) as H.
    fold rpm_range in H. lra. }
  assert (Hscale : forall a b, a < b -> 2 * PI * a / 60000 < 2 * PI * b / 60000).
  { intros a b Hab.
    apply Rmult_lt_compat_r; [lra | ].
    apply Rmult_lt_compat_l; lra. }
  assert (Hshape : forall r t, 2 * PI * r * t / 60000 = 2 * PI * (r * t) / 60000).
  { intros r t. field. }
  split; [ | split].
  - intros i j Hij. rewrite !power_curve_nth by lia.
    rewrite !Hshape. apply Hscale.
    pose proof (torque_sample_rising max_torque i j Hpos Hij) as Ht.
    pose proof (torque_sample_range max_torque i Hpos ltac:(lia)) as [Hti _].
    pose proof (rpm_range_increasing i j ltac:(lia)) as Hr.
    pose proof (Hsample i ltac:(lia)) as Hri.
    apply Rmult_gt_0_lt_compat; lra.
  - intros i j Hij Hj. rewrite !power_curve_nth by lia.
    rewrite !Hshape. apply Hscale.
    pose proof (rpm_sample_after_peak i ltac:(lia)) as [Ha _].
    pose proof (rpm_sample_after_peak j ltac:(lia)) as [Ha' _].
    pose proof (rpm_range_increasing i j ltac:(lia)) as Hr.
    rewrite !torque_at_decay by lra.
    pose proof (speed_times_decay_falls (nth i rpm_range 0) (nth j rpm_range 0)
                  ltac:(lra) Hr) as Hfall.
    set (ri := nth i rpm_range 0) in *. set (rj := nth j rpm_range 0) in *.
    replace (rj * (max_torque * exp (- 0.0005 * (rj - 3000))))
      with (max_torque * (rj * exp (- 0.0005 * (rj - 3000)))) by ring.
    replace (ri * (max_torque * exp (- 0.0005 * (ri - 3000))))
      with (max_torque * (ri * exp (- 0.0005 * (ri - 3000)))) by ring.
    apply Rmult_lt_compat_l; assumption.
  - intros i Hi. rewrite power_curve_nth by exact Hi.
    pose proof (torque_sample_range max_torque i Hpos Hi) as [Hti _].
    pose proof (Hsample i Hi) as Hri.
    apply Rdiv_lt_0_compat; [ | lra].
    apply Rmult_lt_0_compat; [ | exact Hti].
    apply Rmult_lt_0_compat; lra.
Qed.

Lemma power_curve_rises_then_falls_witness :
  nth 19 (power_curve 150) 0 < nth 20 (power_curve 150) 0 /\
  nth 49 (power_curve 150) 0 < nth 20 (power_curve 150) 0.
Proof.
  destruct (power_curve_rises_then_falls 150) as (Hup & Hdown & _); [lra | ].
  split; [apply Hup; lia | apply Hdown; lia].
Defined.


